(** * Verification of Problemas/fibonacci/fibonacci_efficiency.py

    Shallow embedding of the three Fibonacci strategies of the benchmark
    script (naive recursion, iterative accumulation, fast doubling) and of
    its timing harness.  Python integers are unbounded, so they are modelled
    by [Z]. *)

From Stdlib Require Import ZArith Lia List QArith String.
Import ListNotations.

Open Scope Z_scope.

(** ** Reference function (the mathematical Fibonacci sequence)

    [fib 0 = 0], [fib 1 = 1], [fib (n+2) = fib (n+1) + fib n]; on [Z] it is
    read at [Z.to_nat n], so it is only meaningful for [n >= 0]. *)

Fixpoint fib_nat (n : nat) : Z :=
  match n with
  | O => 0
  | S m =>
      match m with
      | O => 1
      | S k => fib_nat m + fib_nat k
      end
  end.

Definition fib (n : Z) : Z := fib_nat (Z.to_nat n).

(** ** fib_recursive_with_counts (lines 20-25)

    <<
    def fib_recursive_with_counts(n):
        if n < 2:
            return n, 1
        v1, s1 = fib_recursive_with_counts(n-1)
        v2, s2 = fib_recursive_with_counts(n-2)
        return v1 + v2, s1 + s2 + 1
    >>
    For [n >= 2] every call is on a non-negative argument, so the recursion
    is carried by [rec_nat] on [Z.to_nat n]; the guard [n < 2] is tested on
    the integer itself, which is what makes negative inputs fall into the
    base case. *)

Fixpoint rec_nat (n : nat) : Z * Z :=
  match n with
  | S (S m as p) =>
      let '(v1, s1) := rec_nat p in
      let '(v2, s2) := rec_nat m in
      (v1 + v2, s1 + s2 + 1)
  | _ => (Z.of_nat n, 1)
  end.

Definition fib_recursive_with_counts (n : Z) : Z * Z :=
  if n <? 2 then (n, 1) else rec_nat (Z.to_nat n).

(** ** fib_iterative_with_counts (lines 27-35)

    <<
    def fib_iterative_with_counts(n):
        if n < 2:
            return n, 1
        a, b = 0, 1
        steps = 1
        for _ in range(2, n+1):
            a, b = b, a + b
            steps += 1
        return b, steps
    >>
    [iter_loop k (a, b, steps)] runs the loop body [k] times;
    [range(2, n+1)] has [n - 1] elements. *)

Fixpoint iter_loop (k : nat) (a b steps : Z) : Z * Z * Z :=
  match k with
  | O => (a, b, steps)
  | S k' => iter_loop k' b (a + b) (steps + 1)
  end.

Definition range_len (lo hi : Z) : nat := Z.to_nat (hi - lo).

Definition fib_iterative_with_counts (n : Z) : Z * Z :=
  if n <? 2 then (n, 1)
  else
    let '(a, b, steps) := iter_loop (range_len 2 (n + 1)) 0 1 1 in
    (b, steps).

(** ** fib_fast_doubling_with_counts (lines 37-49)

    <<
    def fib_fast_doubling_with_counts(n):
        def fd(k):
            if k == 0:
                return 0, 1, 1
            f_k, f_k1, s = fd(k >> 1)
            c = f_k * ((f_k1 << 1) - f_k)
            d = f_k*f_k + f_k1*f_k1
            if k & 1:
                return d, c + d, s + 1
            else:
                return c, d, s + 1
        f_n, _, steps = fd(n)
        return f_n, steps
    >>
    [fd] is not structurally recursive: on a negative [k] the arithmetic
    shift [k >> 1] never reaches [0] (Python ends with a RecursionError).
    [fd fuel k] runs the recursion with at most [fuel] nested calls and
    yields [None] when the base case is not reached within them. *)

Fixpoint fd (fuel : nat) (k : Z) : option (Z * Z * Z) :=
  match fuel with
  | O => None
  | S fuel' =>
      if k =? 0 then Some (0, 1, 1)
      else
        match fd fuel' (Z.shiftr k 1) with
        | None => None
        | Some (f_k, f_k1, s) =>
            let c := f_k * (Z.shiftl f_k1 1 - f_k) in
            let d := f_k * f_k + f_k1 * f_k1 in
            if negb (Z.land k 1 =? 0) then Some (d, c + d, s + 1)
            else Some (c, d, s + 1)
        end
  end.

(** Nesting depth of [fd n] for [n >= 0]: one call per bit of [n], plus
    the base call on [0]. *)
Definition fd_fuel_bound (n : Z) : nat := S (S (Z.to_nat (Z.log2 n))).

(** [None] stands for the non-terminating recursion on a negative [n]. *)
Definition fib_fast_doubling_with_counts (n : Z) : option (Z * Z) :=
  match fd (fd_fuel_bound n) n with
  | Some (f_n, _, steps) => Some (f_n, steps)
  | None => None
  end.

(** Step count of [fd k] for [k >= 0]: one per recursive level. *)
Definition fd_steps (k : Z) : Z := if k =? 0 then 1 else Z.log2 k + 2.

(** ** FibResult and run_and_time (lines 12-18, 51-58)

    <<
    def run_and_time(fn, n_list, name):
        out = []
        for n in n_list:
            t0 = time.perf_counter()
            val, steps = fn(n)
            dt = (time.perf_counter() - t0)*1000.0
            out.append(FibResult(n, val, steps, dt, name))
        return out
    >>
    A strategy is [Z -> option (Z * Z)] ([None]: the call does not return).
    The clock is the only environment the harness reads: [perf_counter i]
    is the value of the [i]-th reading of [time.perf_counter], and the
    harness threads the number of readings made so far.  Times are
    rationals in place of floats. *)

Module FibResult.
Record t : Type := mk {
  n : Z;
  value : Z;
  steps : Z;
  time_ms : Q;
  algo : string
}.
End FibResult.

Definition strategy : Type := Z -> option (Z * Z).

Section Harness.

Variable perf_counter : nat -> Q.

Fixpoint run_loop (fn : strategy) (name : string) (n_list : list Z)
    (out : list FibResult.t) (clk : nat) : option (list FibResult.t * nat) :=
  match n_list with
  | [] => Some (out, clk)
  | n :: rest =>
      let t0 := perf_counter clk in
      match fn n with
      | None => None
      | Some (val, steps) =>
          let dt := Qmult (Qminus (perf_counter (S clk)) t0) 1000 in
          run_loop fn name rest
            (out ++ [FibResult.mk n val steps dt name]) (S (S clk))
      end
  end.

Definition run_and_time (fn : strategy) (n_list : list Z) (name : string)
    (clk : nat) : option (list FibResult.t * nat) :=
  run_loop fn name n_list [] clk.

End Harness.

(** The three strategies as harness arguments. *)
Definition strat_recursive : strategy := fun n => Some (fib_recursive_with_counts n).
Definition strat_iterative : strategy := fun n => Some (fib_iterative_with_counts n).
Definition strat_fast_doubling : strategy := fib_fast_doubling_with_counts.

(** ** main (lines 60-107): the measurements

    <<
    n_small = [0,1,2,3,5,8,10,15,20,25,30,35]
    res_small = []
    res_small += run_and_time(fib_recursive_with_counts, [x for x in n_small if x <= 35], "recursive")
    res_small += run_and_time(fib_iterative_with_counts, n_small, "iterative")
    res_small += run_and_time(fib_fast_doubling_with_counts, n_small, "fast_doubling")
    ...
    n_large = [10, 100, 1_000, 10_000, 100_000, 1_000_000]
    res_large = []
    res_large += run_and_time(fib_iterative_with_counts, n_large, "iterative")
    res_large += run_and_time(fib_fast_doubling_with_counts, n_large, "fast_doubling")
    >>
    The data-frame, CSV and plotting calls in between are external and read
    no clock; [main_results] gives the two result lists [main] hands to
    them, with the clock threaded through the five harness runs.  The
    digit column of the large table is computed with a float logarithm and
    is not modelled. *)

Definition n_small : list Z := [0; 1; 2; 3; 5; 8; 10; 15; 20; 25; 30; 35].

Definition n_large : list Z := [10; 100; 1000; 10000; 100000; 1000000].

(** Sequencing of calls that may not return. *)
Definition obind {A B : Type} (m : option A) (f : A -> option B) : option B :=
  match m with
  | None => None
  | Some a => f a
  end.

Definition main_results (perf_counter : nat -> Q) (clk : nat)
    : option (list FibResult.t * list FibResult.t * nat) :=
  obind (run_and_time perf_counter strat_recursive
           (filter (fun x => x <=? 35) n_small) "recursive" clk) (fun '(r1, c1) =>
  obind (run_and_time perf_counter strat_iterative n_small "iterative" c1) (fun '(r2, c2) =>
  obind (run_and_time perf_counter strat_fast_doubling n_small "fast_doubling" c2) (fun '(r3, c3) =>
  let res_small := (([] ++ r1) ++ r2) ++ r3 in
  obind (run_and_time perf_counter strat_iterative n_large "iterative" c3) (fun '(r4, c4) =>
  obind (run_and_time perf_counter strat_fast_doubling n_large "fast_doubling" c4) (fun '(r5, c5) =>
  let res_large := ([] ++ r4) ++ r5 in
  Some (res_small, res_large, c5)))))).

(** A clock that advances by one unit per reading. *)
Definition clock_ticks (i : nat) : Q := inject_Z (Z.of_nat i).

(** Sanity checks on small inputs. *)

Example rec_10 : fib_recursive_with_counts 10 = (55, 177).
Proof. reflexivity. Qed.

Example iter_10 : fib_iterative_with_counts 10 = (55, 10).
Proof. reflexivity. Qed.

Example fd_10 : fib_fast_doubling_with_counts 10 = Some (55, 5).
Proof. reflexivity. Qed.

Example iter_neg : fib_iterative_with_counts (-3) = (-3, 1).
Proof. reflexivity. Qed.

(** ** Facts about the reference function *)

Lemma fib_nat_SS (n : nat) :
  fib_nat (S (S n)) = fib_nat (S n) + fib_nat n.
Proof. reflexivity. Qed.

Lemma fib_step (n : Z) : 0 <= n -> fib (n + 2) = fib (n + 1) + fib n.
Proof.
  intro Hn. unfold fib.
  replace (Z.to_nat (n + 2)) with (S (S (Z.to_nat n))) by lia.
  replace (Z.to_nat (n + 1)) with (S (Z.to_nat n)) by lia.
  reflexivity.
Qed.

Lemma fib_0 : fib 0 = 0.
Proof. reflexivity. Qed.

Lemma fib_1 : fib 1 = 1.
Proof. reflexivity. Qed.

(** Addition formula [F(m+n+1) = F(m+1) F(n+1) + F(m) F(n)]. *)
Lemma fib_nat_add (m n : nat) :
  fib_nat (m + n + 1) = fib_nat (m + 1) * fib_nat (n + 1) + fib_nat m * fib_nat n.
Proof.
  revert n. induction m as [m IH] using (well_founded_induction lt_wf). intro n.
  destruct m as [|[|m]].
  - replace (0 + n + 1)%nat with (S n) by lia.
    replace (n + 1)%nat with (S n) by lia.
    change (fib_nat (S n) = 1 * fib_nat (S n) + 0 * fib_nat n). ring.
  - replace (1 + n + 1)%nat with (S (S n)) by lia.
    replace (n + 1)%nat with (S n) by lia.
    rewrite fib_nat_SS.
    change (fib_nat (S n) + fib_nat n = 1 * fib_nat (S n) + 1 * fib_nat n). ring.
  - replace (S (S m) + n + 1)%nat with (S (S (m + n + 1))) by lia.
    rewrite fib_nat_SS.
    replace (S (m + n + 1)) with (S m + n + 1)%nat by lia.
    rewrite (IH (S m)) by lia. rewrite (IH m) by lia.
    replace (S (S m) + 1)%nat with (S (S (S m))) by lia.
    replace (S m + 1)%nat with (S (S m)) by lia.
    replace (m + 1)%nat with (S m) by lia.
    rewrite (fib_nat_SS (S m)), (fib_nat_SS m). ring.
Qed.

(** ** The recursive strategy *)

Lemma rec_nat_closed (n : nat) :
  rec_nat n = (fib_nat n, 2 * fib_nat (S n) - 1).
Proof.
  induction n as [n IH] using (well_founded_induction lt_wf).
  destruct n as [|[|m]]; [reflexivity|reflexivity|].
  change (rec_nat (S (S m)))
    with (let '(v1, s1) := rec_nat (S m) in
          let '(v2, s2) := rec_nat m in (v1 + v2, s1 + s2 + 1)).
  rewrite (IH (S m)) by lia. rewrite (IH m) by lia.
  rewrite (fib_nat_SS m), (fib_nat_SS (S m)), (fib_nat_SS m).
  f_equal. ring.
Qed.

Lemma rec_nonneg (n : Z) : 0 <= n ->
  fib_recursive_with_counts n = (fib n, 2 * fib (n + 1) - 1).
Proof.
  intro Hn. unfold fib_recursive_with_counts, fib.
  replace (Z.to_nat (n + 1)) with (S (Z.to_nat n)) by lia.
  destruct (Z.ltb_spec n 2).
  - rewrite <- rec_nat_closed.
    assert (n = 0 \/ n = 1) as [-> | ->] by lia; reflexivity.
  - apply rec_nat_closed.
Qed.

(** ** The iterative strategy *)

Lemma iter_loop_inv (j k : nat) (s : Z) :
  iter_loop j (fib_nat k) (fib_nat (S k)) s
  = (fib_nat (k + j), fib_nat (S (k + j)), s + Z.of_nat j).
Proof.
  revert k s. induction j as [|j IH]; intros k s.
  - simpl. rewrite Nat.add_0_r, Z.add_0_r. reflexivity.
  - cbn [iter_loop].
    replace (fib_nat k + fib_nat (S k)) with (fib_nat (S (S k)))
      by (rewrite fib_nat_SS; ring).
    rewrite IH.
    replace (S k + j)%nat with (k + S j)%nat by lia.
    f_equal. lia.
Qed.

Lemma iter_nonneg (n : Z) : 0 <= n ->
  fib_iterative_with_counts n = (fib n, if n <? 2 then 1 else n).
Proof.
  intro Hn. unfold fib_iterative_with_counts, range_len, fib.
  destruct (Z.ltb_spec n 2).
  - assert (n = 0 \/ n = 1) as [-> | ->] by lia; reflexivity.
  - pose proof (iter_loop_inv (Z.to_nat (n + 1 - 2)) 0 1) as Hl.
    change (fib_nat 0) with 0 in Hl. change (fib_nat 1) with 1 in Hl.
    rewrite Hl.
    replace (S (0 + Z.to_nat (n + 1 - 2)))%nat with (Z.to_nat n) by lia.
    f_equal. lia.
Qed.

(** ** The doubling identities *)

Lemma fib_nat_double (m : nat) :
  fib_nat (2 * m) = fib_nat m * (2 * fib_nat (S m) - fib_nat m).
Proof.
  destruct m as [|m]; [reflexivity|].
  replace (2 * S m)%nat with (S m + m + 1)%nat by lia.
  rewrite fib_nat_add.
  replace (S m + 1)%nat with (S (S m)) by lia.
  replace (m + 1)%nat with (S m) by lia.
  rewrite (fib_nat_SS m). ring.
Qed.

Lemma fib_nat_double1 (m : nat) :
  fib_nat (2 * m + 1) = fib_nat m * fib_nat m + fib_nat (S m) * fib_nat (S m).
Proof.
  replace (2 * m + 1)%nat with (m + m + 1)%nat by lia.
  rewrite fib_nat_add. replace (m + 1)%nat with (S m) by lia. ring.
Qed.

Lemma fib_double (m : Z) : 0 <= m ->
  fib (2 * m) = fib m * (2 * fib (m + 1) - fib m).
Proof.
  intro Hm. unfold fib.
  replace (Z.to_nat (2 * m)) with (2 * Z.to_nat m)%nat by lia.
  replace (Z.to_nat (m + 1)) with (S (Z.to_nat m)) by lia.
  apply fib_nat_double.
Qed.

Lemma fib_double1 (m : Z) : 0 <= m ->
  fib (2 * m + 1) = fib m * fib m + fib (m + 1) * fib (m + 1).
Proof.
  intro Hm. unfold fib.
  replace (Z.to_nat (2 * m + 1)) with (2 * Z.to_nat m + 1)%nat by lia.
  replace (Z.to_nat (m + 1)) with (S (Z.to_nat m)) by lia.
  apply fib_nat_double1.
Qed.

(** ** The fast-doubling recursion *)

(** The operations of [fd] on the bits of [k]. *)
Lemma shiftr1_div2 (k : Z) : Z.shiftr k 1 = k / 2.
Proof. rewrite Z.shiftr_div_pow2 by lia. reflexivity. Qed.

Lemma shiftl1_double (x : Z) : Z.shiftl x 1 = 2 * x.
Proof. rewrite Z.shiftl_mul_pow2 by lia. ring. Qed.

Lemma land1_mod2 (k : Z) : Z.land k 1 = k mod 2.
Proof. change 1 with (Z.ones 1) at 1. rewrite Z.land_ones by lia. reflexivity. Qed.

Lemma fd_unfold (fuel : nat) (k : Z) :
  fd (S fuel) k =
  if k =? 0 then Some (0, 1, 1)
  else match fd fuel (Z.shiftr k 1) with
       | None => None
       | Some (f_k, f_k1, s) =>
           let c := f_k * (Z.shiftl f_k1 1 - f_k) in
           let d := f_k * f_k + f_k1 * f_k1 in
           if negb (Z.land k 1 =? 0) then Some (d, c + d, s + 1)
           else Some (c, d, s + 1)
       end.
Proof. reflexivity. Qed.

(** Linear arithmetic with divisions by constants. *)
Ltac div_lia := Z.to_euclidean_division_equations; lia.

Lemma log2_ge1 (k : Z) : 2 <= k -> 1 <= Z.log2 k.
Proof.
  intro Hk. rewrite <- (Z.log2_pow2 1) by lia. apply Z.log2_le_mono. lia.
Qed.

(** With enough fuel, every level of [fd] returns [(F k, F (k+1), steps)]. *)
Lemma fd_correct (fuel : nat) (k : Z) :
  0 <= k -> (Z.to_nat (fd_steps k) <= fuel)%nat ->
  fd fuel k = Some (fib k, fib (k + 1), fd_steps k).
Proof.
  revert k. induction fuel as [|fuel IH]; intros k Hk Hf.
  - unfold fd_steps in Hf. destruct (k =? 0); pose proof (Z.log2_nonneg k); lia.
  - rewrite fd_unfold. destruct (Z.eqb_spec k 0) as [->|Hk0]; [reflexivity|].
    assert (Hm : 0 <= k / 2) by (apply Z.div_pos; lia).
    rewrite IH; cycle 1.
    + rewrite shiftr1_div2. exact Hm.
    + unfold fd_steps in *. apply Z.eqb_neq in Hk0. rewrite Hk0 in Hf.
      pose proof (Z.log2_nonneg k).
      destruct (Z.eqb_spec (Z.shiftr k 1) 0) as [|Hs]; [lia|].
      rewrite shiftr1_div2 in Hs. pose proof (log2_ge1 k ltac:(div_lia)).
      rewrite Z.log2_shiftr by lia. lia.
    + rewrite shiftr1_div2, shiftl1_double, land1_mod2.
      set (m := k / 2).
      assert (Hk2 : k = 2 * m + k mod 2) by (apply Z.div_mod; lia).
      assert (Hsteps : fd_steps m + 1 = fd_steps k).
      { unfold fd_steps, m. rewrite <- shiftr1_div2.
        destruct (Z.eqb_spec (Z.shiftr k 1) 0) as [H0|H0];
          destruct (Z.eqb_spec k 0); try lia.
        - rewrite shiftr1_div2 in H0.
          assert (k = 1) as -> by div_lia. reflexivity.
        - rewrite Z.log2_shiftr by lia.
          rewrite shiftr1_div2 in H0.
          pose proof (log2_ge1 k ltac:(div_lia)). lia. }
      rewrite Hsteps.
      assert (Hr : k mod 2 = 0 \/ k mod 2 = 1) by (pose proof (Z.mod_pos_bound k 2); lia).
      destruct Hr as [Hr|Hr]; rewrite Hr; simpl negb; cbv iota.
      * rewrite Hr in Hk2. rewrite Z.add_0_r in Hk2. rewrite Hk2.
        rewrite fib_double, fib_double1 by exact Hm. reflexivity.
      * rewrite Hr in Hk2. rewrite Hk2.
        replace (2 * m + 1 + 1) with (2 * m + 2) by ring.
        rewrite fib_step by lia.
        rewrite fib_double, fib_double1 by exact Hm.
        apply f_equal, (f_equal2 pair); [apply (f_equal2 pair)|]; [reflexivity|ring|reflexivity].
Qed.

(** On a negative argument, no amount of fuel reaches the base case. *)
Lemma fd_neg (fuel : nat) (k : Z) : k < 0 -> fd fuel k = None.
Proof.
  revert k. induction fuel as [|fuel IH]; intros k Hk; [reflexivity|].
  rewrite fd_unfold. destruct (Z.eqb_spec k 0); [lia|].
  rewrite IH; [reflexivity|]. apply Z.shiftr_neg. exact Hk.
Qed.

(** [fd] does not depend on the fuel once it returns. *)
Lemma fd_det (f1 f2 : nat) (k : Z) (r1 r2 : Z * Z * Z) :
  fd f1 k = Some r1 -> fd f2 k = Some r2 -> r1 = r2.
Proof.
  revert f2 k r1 r2. induction f1 as [|f1 IH]; intros f2 k r1 r2 H1 H2;
    [discriminate|].
  destruct f2 as [|f2]; [discriminate|].
  rewrite fd_unfold in H1, H2.
  destruct (k =? 0); [congruence|].
  destruct (fd f1 (Z.shiftr k 1)) as [[[a1 b1] s1]|] eqn:E1; [|discriminate].
  destruct (fd f2 (Z.shiftr k 1)) as [[[a2 b2] s2]|] eqn:E2; [|discriminate].
  pose proof (IH _ _ _ _ E1 E2) as E. injection E as <- <- <-.
  destruct (negb (Z.land k 1 =? 0)); congruence.
Qed.

Lemma fd_bound_enough (n : Z) :
  0 <= n -> (Z.to_nat (fd_steps n) <= fd_fuel_bound n)%nat.
Proof.
  intro Hn. unfold fd_steps, fd_fuel_bound.
  pose proof (Z.log2_nonneg n). destruct (n =? 0); lia.
Qed.

Lemma fast_nonneg (n : Z) : 0 <= n ->
  fib_fast_doubling_with_counts n = Some (fib n, fd_steps n).
Proof.
  intro Hn. unfold fib_fast_doubling_with_counts.
  rewrite fd_correct by (auto using fd_bound_enough). reflexivity.
Qed.

Lemma fast_neg (n : Z) : n < 0 -> fib_fast_doubling_with_counts n = None.
Proof.
  intro Hn. unfold fib_fast_doubling_with_counts. rewrite fd_neg by exact Hn.
  reflexivity.
Qed.

Lemma fd_steps_pos (n : Z) : 0 < n -> fd_steps n = Z.log2 n + 2.
Proof. intro Hn. unfold fd_steps. destruct (Z.eqb_spec n 0); [lia|reflexivity]. Qed.

(** ** The harness loop *)

Lemma run_loop_spec (perf_counter : nat -> Q) (fn : strategy) (name : string)
    (ns : list Z) (acc out : list FibResult.t) (clk clk' : nat) :
  run_loop perf_counter fn name ns acc clk = Some (out, clk') ->
  exists new,
    out = acc ++ new /\
    Forall2 (fun n r =>
      FibResult.n r = n /\ FibResult.algo r = name /\
      fn n = Some (FibResult.value r, FibResult.steps r)) ns new /\
    clk' = (clk + 2 * List.length ns)%nat.
Proof.
  revert acc clk. induction ns as [|x ns IH]; intros acc clk H; simpl in H.
  - injection H as <- <-. exists []. rewrite app_nil_r. simpl. auto with arith.
  - destruct (fn x) as [[v st]|] eqn:Ex; [|discriminate].
    destruct (IH _ _ H) as (new & -> & Hf & ->).
    eexists (_ :: new). rewrite <- app_assoc. simpl.
    split; [reflexivity|]. split; [constructor; simpl; auto|]. lia.
Qed.

Lemma run_loop_total (perf_counter : nat -> Q) (fn : strategy) (name : string)
    (ns : list Z) (acc : list FibResult.t) (clk : nat) :
  (forall n, In n ns -> fn n <> None) ->
  run_loop perf_counter fn name ns acc clk <> None.
Proof.
  revert acc clk. induction ns as [|x ns IH]; intros acc clk H; simpl; [discriminate|].
  destruct (fn x) as [[v st]|] eqn:Ex.
  - apply IH. intros m Hm. apply H. right. exact Hm.
  - exfalso. apply (H x); [left; reflexivity | exact Ex].
Qed.

(** * Claims *)

(** C1: the three strategies agree on the value wherever two of them
    return one: the recursive and iterative strategies agree at every
    integer, fast doubling agrees with them whenever it returns, and it
    returns (with the common value) at every [n >= 0], in particular at
    [n = 0, ..., 30]. *)
Theorem strategies_agree (n : Z) :
  fst (fib_recursive_with_counts n) = fst (fib_iterative_with_counts n) /\
  (forall v s, fib_fast_doubling_with_counts n = Some (v, s) ->
     v = fst (fib_recursive_with_counts n)) /\
  (0 <= n -> exists s,
     fib_fast_doubling_with_counts n = Some (fst (fib_recursive_with_counts n), s)).
Proof.
  destruct (Z.ltb_spec n 0) as [Hn|Hn].
  - unfold fib_recursive_with_counts, fib_iterative_with_counts.
    replace (n <? 2) with true by (symmetry; apply Z.ltb_lt; lia).
    rewrite fast_neg by exact Hn.
    split; [reflexivity|]. split; [discriminate|lia].
  - rewrite rec_nonneg, iter_nonneg, fast_nonneg by exact Hn. simpl.
    split; [reflexivity|]. split.
    + intros v s E. congruence.
    + intros _. eexists. reflexivity.
Qed.

Lemma strategies_agree_witness :
  exists s, fib_fast_doubling_with_counts 30 = Some (fst (fib_recursive_with_counts 30), s).
Proof. apply (proj2 (proj2 (strategies_agree 30))). lia. Defined.

(** C2: for [n >= 0] fast doubling returns [fib n]; at every level the
    inner [fd k] returns [(F k, F (k+1), _)], computed by the doubling
    identities from [fd (k >> 1)] ([k >> 1 = k / 2]), with the base case
    [fd 0 = (0, 1, 1)]. *)
Theorem fast_doubling_correct (n : Z) (Hn : 0 <= n) :
  (exists steps, fib_fast_doubling_with_counts n = Some (fib n, steps)) /\
  (forall fuel k a b s, fd fuel k = Some (a, b, s) -> a = fib k /\ b = fib (k + 1)) /\
  (forall fuel, fd (S fuel) 0 = Some (fib 0, fib 1, 1)) /\
  (forall k, Z.shiftr k 1 = k / 2) /\
  (forall k, 0 <= k ->
     fib (2 * k) = fib k * (2 * fib (k + 1) - fib k) /\
     fib (2 * k + 1) = fib k ^ 2 + fib (k + 1) ^ 2).
Proof.
  split; [|split; [|split; [|split]]].
  - rewrite fast_nonneg by exact Hn. eexists. reflexivity.
  - intros fuel k a b s E.
    destruct (Z.ltb_spec k 0) as [Hk|Hk]; [rewrite fd_neg in E; [discriminate|exact Hk]|].
    pose proof (fd_correct (Z.to_nat (fd_steps k)) k Hk (le_n _)) as E'.
    pose proof (fd_det _ _ _ _ _ E E') as Eq. injection Eq as -> -> _. auto.
  - intro fuel. reflexivity.
  - exact shiftr1_div2.
  - intros k Hk. split; [apply fib_double; exact Hk|].
    rewrite fib_double1 by exact Hk. ring.
Qed.

Lemma fast_doubling_correct_witness :
  exists steps, fib_fast_doubling_with_counts 20 = Some (fib 20, steps).
Proof. apply (proj1 (fast_doubling_correct 20 ltac:(lia))). Defined.

(** C3: for [n >= 0] the recursive strategy returns [fib n], with step
    count 1 below 2 and [1 + steps (n-1) + steps (n-2)] otherwise (the
    number of nodes of the call tree, [2 fib (n+1) - 1]). *)
Theorem recursive_spec (n : Z) (Hn : 0 <= n) :
  fst (fib_recursive_with_counts n) = fib n /\
  (n < 2 -> snd (fib_recursive_with_counts n) = 1) /\
  (2 <= n -> snd (fib_recursive_with_counts n)
             = 1 + snd (fib_recursive_with_counts (n - 1))
                 + snd (fib_recursive_with_counts (n - 2))) /\
  snd (fib_recursive_with_counts n) = 2 * fib (n + 1) - 1.
Proof.
  rewrite rec_nonneg by exact Hn. cbn [fst snd].
  split; [reflexivity|]. split; [|split; [|reflexivity]].
  - intro Hlt. assert (n = 0 \/ n = 1) as [-> | ->] by lia; reflexivity.
  - intro Hge. rewrite !rec_nonneg by lia. cbn [fst snd].
    replace (n + 1) with ((n - 1) + 2) by ring.
    rewrite fib_step by lia.
    replace (n - 1 + 1) with ((n - 2) + 2) by ring.
    rewrite fib_step by lia.
    replace (n - 2 + 1) with (n - 1) by ring. ring.
Qed.

Lemma recursive_spec_witness :
  snd (fib_recursive_with_counts 12)
  = 1 + snd (fib_recursive_with_counts 11) + snd (fib_recursive_with_counts 10).
Proof.
  exact (proj1 (proj2 (proj2 (recursive_spec 12 ltac:(lia)))) ltac:(lia)).
Defined.

(** C4: for [n >= 0] the iterative strategy returns [fib n] with step
    count 1 for [n < 2] and [n] otherwise, i.e. [max 1 n]; after [j]
    rounds of the loop ([k = j + 1]) the running pair is
    [(fib (k-1), fib k)] and the counter is [k]. *)
Theorem iterative_spec (n : Z) (Hn : 0 <= n) :
  fib_iterative_with_counts n = (fib n, if n <? 2 then 1 else n) /\
  snd (fib_iterative_with_counts n) = Z.max 1 n /\
  (forall j, (j <= range_len 2 (n + 1))%nat ->
     let k := Z.of_nat j + 1 in
     iter_loop j 0 1 1 = (fib (k - 1), fib k, k)).
Proof.
  split; [|split].
  - apply iter_nonneg. exact Hn.
  - rewrite iter_nonneg by exact Hn. cbn [snd].
    destruct (Z.ltb_spec n 2); lia.
  - intros j _ k. unfold k, fib.
    pose proof (iter_loop_inv j 0 1) as Hl.
    change (fib_nat 0) with 0 in Hl. change (fib_nat 1) with 1 in Hl.
    rewrite Hl.
    replace (Z.to_nat (Z.of_nat j + 1 - 1)) with (0 + j)%nat by lia.
    replace (Z.to_nat (Z.of_nat j + 1)) with (S (0 + j)) by lia.
    f_equal. lia.
Qed.

Lemma iterative_spec_witness :
  fib_iterative_with_counts 7 = (fib 7, if 7 <? 2 then 1 else 7).
Proof. exact (proj1 (iterative_spec 7 ltac:(lia))). Defined.

(** C5 (as stated): fast doubling returns [(0, 1)] at [0] and [(1, 1)] at
    [1].  False at [1]: [fd 1] is one level above [fd 0] and counts two
    steps. *)
Lemma fast_doubling_at_1_counterexample :
  ~ (fib_fast_doubling_with_counts 0 = Some (0, 1) /\
     fib_fast_doubling_with_counts 1 = Some (1, 1)).
Proof. intros [_ H]. discriminate H. Qed.

(** C5 (amended): fast doubling returns [(0, 1)] at [0] and [(1, 2)] at
    [1]. *)
Theorem fast_doubling_base_cases :
  fib_fast_doubling_with_counts 0 = Some (0, 1) /\
  fib_fast_doubling_with_counts 1 = Some (1, 2).
Proof. split; reflexivity. Qed.

(** C6: the fast-doubling step count is [log2 n + 2] for [n > 0]: it grows
    by exactly one per halving level (doubling [n] adds one step), it is
    [k + 2] at [n = 2^k], and [steps (2^20) < 3 * steps (2^10)]. *)
Theorem fast_doubling_steps_log :
  (forall n, 0 < n ->
     exists v, fib_fast_doubling_with_counts n = Some (v, Z.log2 n + 2)) /\
  (forall n v s v' s', 0 < n ->
     fib_fast_doubling_with_counts n = Some (v, s) ->
     fib_fast_doubling_with_counts (2 * n) = Some (v', s') -> s' = s + 1) /\
  (forall k, 0 <= k ->
     exists v, fib_fast_doubling_with_counts (2 ^ k) = Some (v, k + 2)) /\
  (exists v1 s1 v2 s2,
     fib_fast_doubling_with_counts (2 ^ 20) = Some (v1, s1) /\
     fib_fast_doubling_with_counts (2 ^ 10) = Some (v2, s2) /\
     s1 < s2 * 3).
Proof.
  assert (Hlog : forall n, 0 < n ->
    exists v, fib_fast_doubling_with_counts n = Some (v, Z.log2 n + 2)).
  { intros n Hn. rewrite fast_nonneg by lia. rewrite fd_steps_pos by exact Hn.
    eexists. reflexivity. }
  assert (Hpow : forall k, 0 <= k ->
    exists v, fib_fast_doubling_with_counts (2 ^ k) = Some (v, k + 2)).
  { intros k Hk. destruct (Hlog (2 ^ k)) as [v Hv]; [apply Z.pow_pos_nonneg; lia|].
    rewrite Z.log2_pow2 in Hv by exact Hk. eexists. exact Hv. }
  split; [exact Hlog|]. split; [|split; [exact Hpow|]].
  - intros n v s v' s' Hn E E'.
    destruct (Hlog n Hn) as [w Hw]. destruct (Hlog (2 * n) ltac:(lia)) as [w' Hw'].
    rewrite Z.log2_double in Hw' by exact Hn.
    rewrite Hw in E. rewrite Hw' in E'.
    injection E as _ Es. injection E' as _ Es'. lia.
  - destruct (Hpow 20 ltac:(lia)) as [v1 H1]. destruct (Hpow 10 ltac:(lia)) as [v2 H2].
    exists v1, 22, v2, 12. split; [exact H1|]. split; [exact H2|]. lia.
Qed.

Lemma fast_doubling_steps_log_witness :
  exists v, fib_fast_doubling_with_counts (2 ^ 5) = Some (v, 5 + 2).
Proof. exact (proj1 (proj2 (proj2 fast_doubling_steps_log)) 5 ltac:(lia)). Defined.

(** C7: [run_and_time fn ns name] returns one [FibResult] per element of
    [ns], in the order of [ns], the [i]-th carrying [n = ns[i]],
    [algo = name] and [(value, steps) = fn ns[i]]; it returns whenever
    [fn] returns on every element, and the only state it touches is the
    clock, read twice per element. *)
Theorem run_and_time_spec (perf_counter : nat -> Q) (fn : strategy)
    (ns : list Z) (name : string) (clk : nat) :
  (forall n, In n ns -> fn n <> None) ->
  exists out clk',
    run_and_time perf_counter fn ns name clk = Some (out, clk') /\
    Forall2 (fun n r =>
      FibResult.n r = n /\ FibResult.algo r = name /\
      fn n = Some (FibResult.value r, FibResult.steps r)) ns out /\
    List.length out = List.length ns /\
    clk' = (clk + 2 * List.length ns)%nat.
Proof.
  intro Hfn. unfold run_and_time.
  destruct (run_loop perf_counter fn name ns [] clk) as [[out clk']|] eqn:E;
    [|exfalso; exact (run_loop_total perf_counter fn name ns [] clk Hfn E)].
  destruct (run_loop_spec _ _ _ _ _ _ _ _ E) as (new & Hout & Hf & Hc).
  simpl in Hout. subst new.
  exists out, clk'. split; [reflexivity|]. split; [exact Hf|].
  split; [|exact Hc].
  symmetry. eapply Forall2_length. exact Hf.
Qed.

Lemma run_and_time_spec_witness :
  exists out clk',
    run_and_time clock_ticks strat_iterative [0; 1; 5] "iterative" 0 = Some (out, clk') /\
    Forall2 (fun n r =>
      FibResult.n r = n /\ FibResult.algo r = "iterative"%string /\
      strat_iterative n = Some (FibResult.value r, FibResult.steps r)) [0; 1; 5] out /\
    List.length out = List.length [0; 1; 5] /\
    clk' = (0 + 2 * List.length [0; 1; 5])%nat.
Proof.
  apply run_and_time_spec. intros n _. unfold strat_iterative. discriminate.
Defined.

(** C9: on a negative [n] the recursive and iterative strategies take the
    [n < 2] branch and return [(n, 1)]. *)
Theorem negative_passthrough (n : Z) (Hn : n < 0) :
  fib_recursive_with_counts n = (n, 1) /\ fib_iterative_with_counts n = (n, 1).
Proof.
  unfold fib_recursive_with_counts, fib_iterative_with_counts.
  replace (n <? 2) with true by (symmetry; apply Z.ltb_lt; lia).
  split; reflexivity.
Qed.

Lemma negative_passthrough_witness :
  fib_recursive_with_counts (-5) = (-5, 1) /\ fib_iterative_with_counts (-5) = (-5, 1).
Proof. exact (negative_passthrough (-5) ltac:(lia)). Defined.

(** C10: for [k >= 0] the recursion of [fd] reaches its base case: each
    call is on [k >> 1], which lies in [[0, k)] while [k > 0], and any
    fuel beyond [fd_fuel_bound k] gives one and the same result; so
    fast doubling returns at every [n >= 0].  For [k < 0], [k >> 1] stays
    negative and no fuel reaches the base case. *)
Theorem fd_terminates :
  (forall k, 0 <= k -> exists r, forall fuel,
     (fd_fuel_bound k <= fuel)%nat -> fd fuel k = Some r) /\
  (forall k, 0 < k -> 0 <= Z.shiftr k 1 < k) /\
  (forall n, 0 <= n -> fib_fast_doubling_with_counts n <> None) /\
  (forall k, k < 0 -> Z.shiftr k 1 < 0) /\
  (forall k fuel, k < 0 -> fd fuel k = None).
Proof.
  split; [|split; [|split; [|split]]].
  - intros k Hk. eexists. intros fuel Hf. apply fd_correct; [exact Hk|].
    pose proof (fd_bound_enough k Hk). lia.
  - intros k Hk. rewrite shiftr1_div2. split; [apply Z.div_pos|]; div_lia.
  - intros n Hn. rewrite fast_nonneg by exact Hn. discriminate.
  - intros k Hk. apply Z.shiftr_neg. exact Hk.
  - intros k fuel Hk. apply fd_neg. exact Hk.
Qed.

Lemma fd_terminates_witness :
  (exists r, forall fuel, (fd_fuel_bound 1000000 <= fuel)%nat -> fd fuel 1000000 = Some r) /\
  fd 50 (-1) = None.
Proof.
  split.
  - exact (proj1 fd_terminates 1000000 ltac:(lia)).
  - exact (proj2 (proj2 (proj2 (proj2 fd_terminates))) (-1) 50%nat ltac:(lia)).
Defined.

(** * Further properties of the script *)

(** ** The harness *)

Lemma run_loop_app (perf_counter : nat -> Q) (fn : strategy) (name : string)
    (ns1 ns2 : list Z) (acc : list FibResult.t) (clk : nat) :
  run_loop perf_counter fn name (ns1 ++ ns2) acc clk
  = obind (run_loop perf_counter fn name ns1 acc clk)
      (fun '(o1, c1) => run_loop perf_counter fn name ns2 o1 c1).
Proof.
  revert acc clk. induction ns1 as [|x ns1 IH]; intros acc clk; [reflexivity|].
  simpl. destruct (fn x) as [[v st]|]; [apply IH|reflexivity].
Qed.

Lemma run_loop_acc (perf_counter : nat -> Q) (fn : strategy) (name : string)
    (ns : list Z) (acc : list FibResult.t) (clk : nat) :
  run_loop perf_counter fn name ns acc clk
  = obind (run_loop perf_counter fn name ns [] clk)
      (fun '(o, c) => Some (acc ++ o, c)).
Proof.
  revert acc clk. induction ns as [|x ns IH]; intros acc clk.
  - simpl. rewrite app_nil_r. reflexivity.
  - simpl. destruct (fn x) as [[v st]|]; [|reflexivity].
    rewrite IH. rewrite (IH [_]).
    destruct (run_loop perf_counter fn name ns [] (S (S clk))) as [[o c]|];
      [|reflexivity].
    simpl. rewrite <- app_assoc. reflexivity.
Qed.


Lemma run_loop_diverges (perf_counter : nat -> Q) (fn : strategy) (name : string)
    (ns : list Z) (acc : list FibResult.t) (clk : nat) :
  (exists n, In n ns /\ fn n = None) ->
  run_loop perf_counter fn name ns acc clk = None.
Proof.
  revert acc clk. induction ns as [|x ns IH]; intros acc clk (m & Hin & Hm);
    [destruct Hin|].
  simpl. destruct Hin as [<-|Hin]; [rewrite Hm; reflexivity|].
  destruct (fn x) as [[v st]|]; [|reflexivity].
  apply IH. exists m. split; assumption.
Qed.

(** X1: running the harness on [ns1 ++ ns2] is running it on [ns1], then
    on [ns2] from the clock reached, and concatenating the results. *)
Theorem run_and_time_app (perf_counter : nat -> Q) (fn : strategy)
    (ns1 ns2 : list Z) (name : string) (clk : nat) :
  run_and_time perf_counter fn (ns1 ++ ns2) name clk
  = obind (run_and_time perf_counter fn ns1 name clk) (fun '(o1, c1) =>
    obind (run_and_time perf_counter fn ns2 name c1) (fun '(o2, c2) =>
    Some (o1 ++ o2, c2))).
Proof.
  unfold run_and_time. rewrite run_loop_app.
  destruct (run_loop perf_counter fn name ns1 [] clk) as [[o1 c1]|]; [|reflexivity].
  simpl. apply run_loop_acc.
Qed.



(** X3: if the strategy does not return on some element of the list, the
    harness returns nothing at all; in particular fast doubling on a list
    containing a negative [n]. *)
Theorem run_and_time_diverges (perf_counter : nat -> Q) (fn : strategy)
    (ns : list Z) (name : string) (clk : nat) :
  ((exists n, In n ns /\ fn n = None) ->
   run_and_time perf_counter fn ns name clk = None) /\
  ((exists n, In n ns /\ n < 0) ->
   run_and_time perf_counter strat_fast_doubling ns name clk = None).
Proof.
  split.
  - apply run_loop_diverges.
  - intros (m & Hin & Hm). apply run_loop_diverges.
    exists m. split; [exact Hin|]. apply fast_neg. exact Hm.
Qed.

Lemma run_and_time_diverges_witness :
  run_and_time clock_ticks strat_fast_doubling [3; -1; 4] "fast_doubling" 0 = None.
Proof.
  apply (proj2 (run_and_time_diverges clock_ticks strat_fast_doubling [3; -1; 4]
                  "fast_doubling" 0)).
  exists (-1). split; [simpl; auto | lia].
Defined.

(** ** Step counts compared *)

Lemma fib_nat_lin (m : nat) : Z.of_nat m <= fib_nat (S m) /\ 1 <= fib_nat (S m).
Proof.
  induction m as [m IH] using (well_founded_induction lt_wf).
  destruct m as [|[|k]]; [simpl; lia|simpl; lia|].
  rewrite fib_nat_SS.
  destruct (IH (S k)) as [H1 H2]; [lia|]. destruct (IH k) as [H3 H4]; [lia|].
  lia.
Qed.

Lemma fib_lin (n : Z) : 0 <= n -> n <= fib (n + 1) /\ 1 <= fib (n + 1).
Proof.
  intro Hn. unfold fib. replace (Z.to_nat (n + 1)) with (S (Z.to_nat n)) by lia.
  pose proof (fib_nat_lin (Z.to_nat n)). lia.
Qed.

Lemma fib_nonneg (n : Z) : 0 <= n -> 0 <= fib n.
Proof.
  intro Hn. destruct (Z.eqb_spec n 0) as [->|Hn0]; [reflexivity|].
  replace n with ((n - 1) + 1) by ring. pose proof (fib_lin (n - 1)). lia.
Qed.

Lemma pow2_lin (k : Z) : 2 <= k -> k + 2 <= 2 ^ k.
Proof.
  intro Hk. replace k with (Z.succ (k - 1)) at 2 by lia.
  rewrite Z.pow_succ_r by lia.
  pose proof (Z.pow_gt_lin_r 2 (k - 1) ltac:(lia) ltac:(lia)). lia.
Qed.

(** X4: the recursive strategy never counts fewer steps than the iterative
    one, and counts strictly more exactly from [n = 2] on. *)
Theorem recursive_vs_iterative_steps (n : Z) (Hn : 0 <= n) :
  snd (fib_iterative_with_counts n) <= snd (fib_recursive_with_counts n) /\
  (snd (fib_iterative_with_counts n) < snd (fib_recursive_with_counts n) <-> 2 <= n).
Proof.
  rewrite rec_nonneg, iter_nonneg by exact Hn. cbn [snd].
  destruct (Z.ltb_spec n 2).
  - assert (n = 0 \/ n = 1) as [-> | ->] by lia;
      replace (fib (_ + 1)) with 1 by reflexivity; lia.
  - pose proof (fib_lin n Hn). lia.
Qed.

Lemma recursive_vs_iterative_steps_witness :
  snd (fib_iterative_with_counts 4) < snd (fib_recursive_with_counts 4).
Proof.
  apply (proj2 (recursive_vs_iterative_steps 4 ltac:(lia))). lia.
Defined.

(** X5: fast doubling counts no more steps than the iterative loop exactly
    at [n = 0] and from [n = 3] on; at [n = 1] and [n = 2] it counts one
    step more. *)
Theorem fast_vs_iterative_steps (n : Z) (Hn : 0 <= n) :
  exists v s, fib_fast_doubling_with_counts n = Some (v, s) /\
    (s <= snd (fib_iterative_with_counts n) <-> n = 0 \/ 3 <= n) /\
    ((n = 1 \/ n = 2) -> s = snd (fib_iterative_with_counts n) + 1).
Proof.
  rewrite fast_nonneg by exact Hn. eexists _, _. split; [reflexivity|].
  rewrite iter_nonneg by exact Hn. cbn [snd].
  replace (if n <? 2 then 1 else n) with (Z.max 1 n) by (destruct (Z.ltb_spec n 2); lia).
  destruct (Z.eqb_spec n 0) as [->|Hn0]; [replace (fd_steps 0) with 1 by reflexivity; lia|].
  rewrite fd_steps_pos by lia.
  assert (n = 1 \/ n = 2 \/ n = 3 \/ 4 <= n) as [->|[->|[->|H4]]] by lia;
    [replace (Z.log2 _) with 0 by reflexivity; lia
    |replace (Z.log2 _) with 1 by reflexivity; lia
    |replace (Z.log2 _) with 1 by reflexivity; lia|].
  pose proof (Z.log2_spec n ltac:(lia)) as [Hlo _].
  assert (2 <= Z.log2 n).
  { rewrite <- (Z.log2_pow2 2) by lia. apply Z.log2_le_mono. lia. }
  pose proof (pow2_lin (Z.log2 n) ltac:(lia)). lia.
Qed.

Lemma fast_vs_iterative_steps_witness :
  exists v s, fib_fast_doubling_with_counts 2 = Some (v, s) /\
    (s <= snd (fib_iterative_with_counts 2) <-> 2 = 0 \/ 3 <= 2) /\
    ((2 = 1 \/ 2 = 2) -> s = snd (fib_iterative_with_counts 2) + 1).
Proof. exact (fast_vs_iterative_steps 2 ltac:(lia)). Defined.

(** X6: the recursive step count more than doubles when [n] grows by two. *)
Theorem recursive_steps_double (n : Z) (Hn : 0 <= n) :
  2 * snd (fib_recursive_with_counts n) < snd (fib_recursive_with_counts (n + 2)).
Proof.
  rewrite !rec_nonneg by lia. cbn [snd].
  replace (n + 2 + 1) with ((n + 1) + 2) by ring.
  rewrite fib_step by lia. replace (n + 1 + 1) with (n + 2) by ring.
  rewrite fib_step by lia.
  pose proof (fib_nonneg n Hn). lia.
Qed.

Lemma recursive_steps_double_witness :
  2 * snd (fib_recursive_with_counts 10) < snd (fib_recursive_with_counts (10 + 2)).
Proof. exact (recursive_steps_double 10 ltac:(lia)). Defined.

(** ** The tables built by main *)

Lemma run_table (perf_counter : nat -> Q) (fn : strategy) (g : Z -> Z)
    (ns : list Z) (name : string) (clk : nat) :
  (forall n, In n ns -> fn n = Some (fib n, g n)) ->
  exists out clk',
    run_and_time perf_counter fn ns name clk = Some (out, clk') /\
    map FibResult.n out = ns /\
    map FibResult.algo out = repeat name (List.length ns) /\
    map FibResult.value out = map fib ns /\
    map FibResult.steps out = map g ns /\
    clk' = (clk + 2 * List.length ns)%nat.
Proof.
  intro Hfn. unfold run_and_time.
  destruct (run_loop perf_counter fn name ns [] clk) as [[out clk']|] eqn:E;
    [|exfalso; refine (run_loop_total perf_counter fn name ns [] clk _ E);
      intros m Hm; rewrite (Hfn m Hm); discriminate].
  destruct (run_loop_spec _ _ _ _ _ _ _ _ E) as (new & Hout & Hf & Hc).
  simpl in Hout. subst new. exists out, clk'.
  split; [reflexivity|]. split; [|split; [|split; [|split; [|exact Hc]]]].
  all: clear Hc E; induction Hf as [|m r ns out [Hn [Ha Hv]] Hf IH]; [reflexivity|].
  all: cbn [map repeat List.length];
       rewrite IH by (intros k Hk; apply Hfn; right; exact Hk).
  all: rewrite (Hfn m (or_introl eq_refl)) in Hv; injection Hv as Hv Hs.
  all: congruence.
Qed.

Lemma in_n_small (n : Z) : In n n_small -> 0 <= n.
Proof.
  intro H. repeat (destruct H as [<-|H]; [lia|]). destruct H.
Qed.

Lemma in_n_large (n : Z) : In n n_large -> 0 <= n.
Proof.
  intro H. repeat (destruct H as [<-|H]; [lia|]). destruct H.
Qed.

Lemma obind_some {A B : Type} (a : A) (f : A -> option B) : obind (Some a) f = f a.
Proof. reflexivity. Qed.

Lemma main_results_shape (perf_counter : nat -> Q) (clk : nat) :
  exists r1 r2 r3 r4 r5 clk',
    main_results perf_counter clk = Some ((([] ++ r1) ++ r2) ++ r3, ([] ++ r4) ++ r5, clk') /\
    map FibResult.n r1 = n_small /\ map FibResult.n r2 = n_small /\
    map FibResult.n r3 = n_small /\ map FibResult.n r4 = n_large /\
    map FibResult.n r5 = n_large /\
    map FibResult.algo r1 = repeat "recursive"%string 12 /\
    map FibResult.algo r2 = repeat "iterative"%string 12 /\
    map FibResult.algo r3 = repeat "fast_doubling"%string 12 /\
    map FibResult.algo r4 = repeat "iterative"%string 6 /\
    map FibResult.algo r5 = repeat "fast_doubling"%string 6 /\
    map FibResult.value r1 = map fib n_small /\ map FibResult.value r2 = map fib n_small /\
    map FibResult.value r3 = map fib n_small /\ map FibResult.value r4 = map fib n_large /\
    map FibResult.value r5 = map fib n_large /\
    map FibResult.steps r4 = map (fun n => if n <? 2 then 1 else n) n_large /\
    map FibResult.steps r5 = map fd_steps n_large /\
    clk' = (clk + 96)%nat.
Proof.
  unfold main_results.
  replace (filter (fun x => x <=? 35) n_small) with n_small by reflexivity.
  destruct (run_table perf_counter strat_recursive (fun n => 2 * fib (n + 1) - 1)
              n_small "recursive" clk)
    as (r1 & c1 & E1 & N1 & A1 & V1 & _ & C1).
  { intros n Hn. unfold strat_recursive. rewrite rec_nonneg by (apply in_n_small; exact Hn).
    reflexivity. }
  rewrite E1. rewrite obind_some. cbv beta iota.
  destruct (run_table perf_counter strat_iterative (fun n => if n <? 2 then 1 else n)
              n_small "iterative" c1)
    as (r2 & c2 & E2 & N2 & A2 & V2 & _ & C2).
  { intros n Hn. unfold strat_iterative. rewrite iter_nonneg by (apply in_n_small; exact Hn).
    reflexivity. }
  rewrite E2. rewrite obind_some. cbv beta iota.
  destruct (run_table perf_counter strat_fast_doubling fd_steps n_small "fast_doubling" c2)
    as (r3 & c3 & E3 & N3 & A3 & V3 & _ & C3).
  { intros n Hn. apply fast_nonneg, in_n_small. exact Hn. }
  rewrite E3. rewrite obind_some. cbv beta iota.
  destruct (run_table perf_counter strat_iterative (fun n => if n <? 2 then 1 else n)
              n_large "iterative" c3)
    as (r4 & c4 & E4 & N4 & A4 & V4 & S4 & C4).
  { intros n Hn. unfold strat_iterative. rewrite iter_nonneg by (apply in_n_large; exact Hn).
    reflexivity. }
  rewrite E4. rewrite obind_some. cbv beta iota.
  destruct (run_table perf_counter strat_fast_doubling fd_steps n_large "fast_doubling" c4)
    as (r5 & c5 & E5 & N5 & A5 & V5 & S5 & C5).
  { intros n Hn. apply fast_nonneg, in_n_large. exact Hn. }
  rewrite E5. rewrite obind_some. cbv beta iota.
  exists r1, r2, r3, r4, r5, c5.
  split; [reflexivity|].
  split; [exact N1|]. split; [exact N2|]. split; [exact N3|].
  split; [exact N4|]. split; [exact N5|].
  split; [exact A1|]. split; [exact A2|]. split; [exact A3|].
  split; [exact A4|]. split; [exact A5|].
  split; [exact V1|]. split; [exact V2|]. split; [exact V3|].
  split; [exact V4|]. split; [exact V5|].
  split; [exact S4|]. split; [exact S5|].
  subst. cbn [List.length n_small n_large]. lia.
Qed.

(** X7: [main] completes its small table: twelve rows per strategy, in
    the blocks recursive, iterative, fast_doubling, each block listing
    [n_small] in order (the filter [x <= 35] keeps every element), and the
    value column of each block is [fib] of its [n], so the three blocks
    agree row by row. *)
Theorem main_small_table (perf_counter : nat -> Q) (clk : nat) :
  exists small large clk',
    main_results perf_counter clk = Some (small, large, clk') /\
    map FibResult.algo small = repeat "recursive"%string 12
                               ++ repeat "iterative"%string 12
                               ++ repeat "fast_doubling"%string 12 /\
    map FibResult.n small = n_small ++ n_small ++ n_small /\
    map FibResult.value small = map fib n_small ++ map fib n_small ++ map fib n_small.
Proof.
  destruct (main_results_shape perf_counter clk)
    as (r1 & r2 & r3 & r4 & r5 & clk' & E & N1 & N2 & N3 & _ & _ & A1 & A2 & A3 & _ & _
        & V1 & V2 & V3 & _).
  exists ((([] ++ r1) ++ r2) ++ r3), (([] ++ r4) ++ r5), clk'.
  split; [exact E|].
  rewrite !app_nil_l, <- !app_assoc, !map_app.
  rewrite N1, N2, N3, A1, A2, A3, V1, V2, V3.
  split; [reflexivity|]. split; reflexivity.
Qed.

